(** * Depression risk classifier: feature derivation and scoring

    A shallow embedding of [streamlit_app.py]: the two helper functions
    ([calculate_age_r_lmp], [calculate_p_stress]), the label dictionaries
    ([scale_labels], [scale_reverse], [health_map]), the assembly of the
    one-row data frame and its projection on [top_features], the threshold
    test, and the [try]/[except] block run when the button is pressed.

    Python [int] is [Z]; [str] is [string]; a [dict] is a [gmap]; a Python
    [float] is an IEEE 754 binary64 value, [spec_float] with precision 53
    and maximal exponent 1024; a raised exception is the [Raise] result. *)

From Stdlib Require Import ZArith QArith Lia List Bool.
From Stdlib Require Import Floats.SpecFloat.
From stdpp Require Import gmap strings list fin_maps.

Local Open Scope string_scope.
Local Open Scope Z_scope.

(** ** Python values used by the script *)

Module Py.

(** [datetime.date]: the three fields the script reads. *)
Record date : Type := mkdate { year : Z; month : Z; day : Z }.

(** Ordering of tuples of integers, as Python compares sequences: the first
    position where they differ decides, and a proper prefix is smaller. *)
Fixpoint tuple_ltb (xs ys : list Z) : bool :=
  match xs, ys with
  | [], [] => false
  | [], _ :: _ => true
  | _ :: _, [] => false
  | x :: xs', y :: ys' => if x =? y then tuple_ltb xs' ys' else x <? y
  end.

(** [date.__lt__] compares the triples (year, month, day). *)
Definition date_ltb (a b : date) : bool :=
  tuple_ltb [year a; month a; day a] [year b; month b; day b].

Definition date_leb (a b : date) : bool := negb (date_ltb b a).

(** [int(b)], and the value of a [bool] used in arithmetic. *)
Definition int_of_bool (b : bool) : Z := if b then 1 else 0.

(** Exceptions that the prediction path can raise.  All of them derive from
    [Exception].  [KeyError] carries the missing key ([dict.__getitem__]) or
    the missing column names (data frame indexing); [ModelError] stands for
    whatever the pipeline's [predict_proba] raises. *)
Inductive exn : Type :=
| KeyError (keys : list string)
| ModelError (msg : string).

(** Outcome of evaluating an expression that may raise. *)
Inductive result (A : Type) : Type :=
| Return (a : A)
| Raise (e : exn).
Arguments Return {A} a.
Arguments Raise {A} e.

(** A dictionary display [{k1: v1, ..., kn: vn}] and a dictionary
    comprehension both insert their items from left to right, a later item
    replacing an earlier one with the same key. *)
Definition dict_of_items {V : Type} (items : list (string * V)) : gmap string V :=
  fold_left (fun d kv => <[kv.1 := kv.2]> d) items ∅.

(** [d[k]] on a dictionary. *)
Definition getitem {V : Type} (d : gmap string V) (k : string) : result V :=
  match d !! k with
  | Some v => Return v
  | None => Raise (KeyError [k])
  end.

(** *** Floating point numbers (binary64) *)

Definition prec : Z := 53.
Definition emax : Z := 1024.

(** [a >= b] on floats: false as soon as one side is a NaN. *)
Definition float_ge (a b : spec_float) : bool := SFleb b a.

Definition float_mul (a b : spec_float) : spec_float := SFmul prec emax a b.

(** The literal [100]. *)
Definition f100 : spec_float := S754_finite false 7036874417766400 (-46).

(** A float that is a number: a zero or a canonical finite binary64. *)
Definition is_number (x : spec_float) : bool :=
  match x with
  | S754_zero _ => true
  | S754_finite _ m e => bounded prec emax m e
  | _ => false
  end.

(** The real value of a number, as a rational.  Every binary64 number is a
    multiple of 2^-1074, the smallest positive one, so the value is written
    over the denominator 2^1074; the numerator is exact whenever the exponent
    is at least -1074, which [is_number] ensures. *)
Definition ulps (x : spec_float) : Z :=
  match x with
  | S754_finite s m e => cond_Zopp s (Z.pos m * 2 ^ (e + 1074))
  | _ => 0
  end.

Definition ulp_den : positive := 2 ^ 1074.

Definition float_value (x : spec_float) : Q := Qmake (ulps x) ulp_den.

End Py.

Import Py.

(** ** Helper functions *)

(** [calculate_age_r_lmp(dob, lmp_date)] *)
Definition calculate_age_r_lmp (dob lmp_date : date) : Z :=
  year lmp_date - year dob
  - int_of_bool (tuple_ltb [month lmp_date; day lmp_date] [month dob; day dob]).

(** [calculate_p_stress(control, confid, yourway, overcome)] *)
Definition calculate_p_stress (control confid yourway overcome : Z) : Z :=
  control + confid + yourway + overcome.

(** ** The questionnaire *)

(** What the widgets hand to the script when the button is pressed: two dates
    and ten strings. *)
Record answers : Type := mkanswers {
  dob : date;
  lmp_date : date;
  diffislp : string;
  nisweat : string;
  tense : string;
  irritab : string;
  control : string;
  confid : string;
  yourway : string;
  overcome : string;
  smoke_r : string;
  health : string
}.

(** [scale_labels], in the order of the display. *)
Definition scale_labels : list (Z * string) :=
  [(1, "Never"); (2, "Almost Never"); (3, "Sometimes"); (4, "Fairly Often");
   (5, "Very Often")].

(** [health_map] *)
Definition health_map : gmap string Z :=
  dict_of_items
    [("Excellent", 1); ("Very Good", 2); ("Good", 3); ("Fair", 4); ("Poor", 5)].

(** [scale_reverse = {v: k for k, v in scale_labels.items()}] *)
Definition scale_reverse : gmap string Z :=
  dict_of_items ((fun kv => (kv.2, kv.1)) <$> scale_labels).

(** [2 if x == "Yes" else 1], once per yes/no question. *)
Definition diffislp_val (a : answers) : Z := if String.eqb (diffislp a) "Yes" then 2 else 1.
Definition nisweat_val (a : answers) : Z := if String.eqb (nisweat a) "Yes" then 2 else 1.
Definition tense_val (a : answers) : Z := if String.eqb (tense a) "Yes" then 2 else 1.
Definition irritab_val (a : answers) : Z := if String.eqb (irritab a) "Yes" then 2 else 1.
Definition smoke_val (a : answers) : Z := if String.eqb (smoke_r a) "Yes" then 2 else 1.

(** ** The data frame *)

(** The row given to [pd.DataFrame([{...}])]. *)
Definition feature_row
    (tense_v irritab_v control_v p_stress yourway_v nisweat_v age_r_lmp smoke_v
     diffislp_v health_v : Z) : gmap string Z :=
  dict_of_items
    [("TENSE", tense_v); ("IRRITAB", irritab_v); ("CONTROL", control_v);
     ("P_STRESS", p_stress); ("YOURWAY", yourway_v); ("NISWEAT", nisweat_v);
     ("AGE_R_LMP", age_r_lmp); ("SMOKE_R", smoke_v); ("DIFFISLP", diffislp_v);
     ("HEALTH", health_v)].

(** The ten column names. *)
Definition feature_names : list string :=
  ["TENSE"; "IRRITAB"; "CONTROL"; "P_STRESS"; "YOURWAY"; "NISWEAT"; "AGE_R_LMP";
   "SMOKE_R"; "DIFFISLP"; "HEALTH"].

(** A one-row frame restricted to a list of columns: the named values, in the
    order asked for. *)
Definition frame : Type := list (string * Z).

Fixpoint select_columns (row : gmap string Z) (cols : list string) : option frame :=
  match cols with
  | [] => Some []
  | c :: cols' =>
      match row !! c, select_columns row cols' with
      | Some v, Some rest => Some ((c, v) :: rest)
      | _, _ => None
      end
  end.

(** The names in the [KeyError] of frame indexing: when no label at all is
    a column the message quotes the whole list asked for, otherwise it lists
    the labels that are not columns, each of them once. *)
Definition missing_columns (row : gmap string Z) (cols : list string) : list string :=
  let missing := filter (fun c => row !! c = None) cols in
  if decide (length missing = length cols) then cols else remove_dups missing.

(** [input_data[top_features]]: indexing a frame by a list of labels raises
    [KeyError] naming the labels that are not columns. *)
Definition frame_getitem (row : gmap string Z) (cols : list string) : result frame :=
  match select_columns row cols with
  | Some f => Return f
  | None => Raise (KeyError (missing_columns row cols))
  end.

(** ** The model artifact and the page *)

(** The three entries of [model_info].  [log_reg_model] stands for
    [log_reg_model.predict_proba(input_data)[:, 1][0]]: the fitted pipeline is
    not part of the script, it is a function of the frame that returns the
    probability of the positive class or raises. *)
Record model_info : Type := mkmodel {
  log_reg_model : frame -> result spec_float;
  threshold : spec_float;
  top_features : list string
}.

(** What the prediction block puts on the page. *)
Inductive widget : Type :=
| st_subheader (body : string)
| st_write_probability (prob : spec_float)
| st_error_at_risk
| st_success_not_at_risk
| st_plotly_chart (value green_end : spec_float)
| st_error_processing (e : exn).

(** The state a run of the block can see: the loaded artifact and the page
    rendered so far. *)
Record world : Type := mkworld {
  artifact : model_info;
  page : list widget
}.

(** ** Statements of the block: state and exceptions *)

Definition M (A : Type) : Type := world -> result A * world.

Definition retM {A : Type} (a : A) : M A := fun w => (Return a, w).

Definition bindM {A B : Type} (m : M A) (k : A -> M B) : M B :=
  fun w =>
    match m w with
    | (Return a, w') => k a w'
    | (Raise e, w') => (Raise e, w')
    end.

Notation "x <- m ;; k" := (bindM m (fun x => k))
  (at level 100, m at next level, right associativity).
Notation "m ;;; k" := (bindM m (fun _ => k))
  (at level 100, right associativity).

(** An expression that may raise and touches no state. *)
Definition eval {A : Type} (r : result A) : M A := fun w => (r, w).

(** Reading a module-level name bound to the artifact. *)
Definition global {A : Type} (proj : model_info -> A) : M A :=
  fun w => (Return (proj (artifact w)), w).

(** A call of a display function. *)
Definition show (x : widget) : M unit :=
  fun w => (Return tt, mkworld (artifact w) (page w ++ [x])).

(** [try: body except Exception as e: handler(e)]; what the body did to the
    state before raising stays done. *)
Definition try_except {A : Type} (body : M A) (handler : exn -> M A) : M A :=
  fun w =>
    match body w with
    | (Return a, w') => (Return a, w')
    | (Raise e, w') => handler e w'
    end.

(** ** The prediction block *)

(** [pred = int(prob >= threshold)] *)
Definition pred (prob thr : spec_float) : Z := int_of_bool (float_ge prob thr).

(** Lines 81 to 119: from the answers to [(prob, pred)]. *)
Definition score (a : answers) : M (spec_float * Z) :=
  let diffislp_v := diffislp_val a in
  let nisweat_v := nisweat_val a in
  let tense_v := tense_val a in
  let irritab_v := irritab_val a in
  let smoke_v := smoke_val a in
  health_v <- eval (getitem health_map (health a)) ;;
  control_v <- eval (getitem scale_reverse (control a)) ;;
  confid_v <- eval (getitem scale_reverse (confid a)) ;;
  yourway_v <- eval (getitem scale_reverse (yourway a)) ;;
  overcome_v <- eval (getitem scale_reverse (overcome a)) ;;
  let p_stress := calculate_p_stress control_v confid_v yourway_v overcome_v in
  let age_r_lmp := calculate_age_r_lmp (dob a) (lmp_date a) in
  let input_data :=
    feature_row tense_v irritab_v control_v p_stress yourway_v nisweat_v
      age_r_lmp smoke_v diffislp_v health_v in
  cols <- global top_features ;;
  input_data <- eval (frame_getitem input_data cols) ;;
  model <- global log_reg_model ;;
  prob <- eval (model input_data) ;;
  thr <- global threshold ;;
  retM (prob, pred prob thr).

(** Lines 121 to 144: the results and the gauge. *)
Definition report (prob : spec_float) (label : Z) : M unit :=
  show (st_subheader "Results") ;;;
  show (st_write_probability prob) ;;;
  (if label =? 1 then show st_error_at_risk else show st_success_not_at_risk) ;;;
  thr <- global threshold ;;
  show (st_plotly_chart (float_mul prob f100) (float_mul thr f100)).

(** Lines 81 to 144: the body of the [try]. *)
Definition prediction_body (a : answers) : M unit :=
  r <- score a ;; report r.1 r.2.

(** Lines 80 to 147: the block run when the button is pressed. *)
Definition predict_risk (a : answers) : M unit :=
  try_except (prediction_body a) (fun e => show (st_error_processing e)).

(** ** Vocabulary of the statements *)

(** The birthday of the year has not come yet at [lmp]. *)
Definition before_birthday (dob lmp : date) : Prop :=
  month lmp < month dob \/ (month lmp = month dob /\ day lmp < day dob).

(** A code of the five-point scale. *)
Definition likert (x : Z) : Prop := 1 <= x <= 5.

(** The sum of a list of integers. *)
Definition sum_list (l : list Z) : Z := fold_right Z.add 0 l.

(** The two vocabularies of labels. *)
Definition likert_labels : list string :=
  ["Never"; "Almost Never"; "Sometimes"; "Fairly Often"; "Very Often"].

Definition health_labels : list string :=
  ["Excellent"; "Very Good"; "Good"; "Fair"; "Poor"].

(** A probability, or a threshold: a number between 0 and 1. *)
Definition probability (x : spec_float) : Prop :=
  is_number x = true /\ (0 <= float_value x <= 1)%Q.

(** *** Sample inputs *)

Definition f_half : spec_float := S754_finite false 4503599627370496 (-53).
Definition f_0_4999 : spec_float := S754_finite false 9005397814890044 (-54).
Definition f_0_5001 : spec_float := S754_finite false 4504500347295970 (-53).

(** The scenario of the specification: born 1970-01-01, last period
    2020-01-01. *)
Definition sample_answers : answers :=
  mkanswers (mkdate 1970 1 1) (mkdate 2020 1 1) "Yes" "No" "Yes" "No"
    "Sometimes" "Fairly Often" "Never" "Very Often" "No" "Good".

(** The same answers with a word outside the vocabulary of a yes/no
    question. *)
Definition maybe_answers : answers :=
  mkanswers (mkdate 1970 1 1) (mkdate 2020 1 1) "maybe" "No" "Yes" "No"
    "Sometimes" "Fairly Often" "Never" "Very Often" "No" "Good".

(** An artifact over the ten columns whose pipeline answers one half
    whatever the frame, with one half as threshold. *)
Definition sample_model : model_info :=
  mkmodel (fun _ => Return f_half) f_half feature_names.

Definition sample_world : world := mkworld sample_model [].

(** An artifact that asks for a column the script does not build, and one
    whose pipeline raises. *)
Definition skewed_model : model_info :=
  mkmodel (fun _ => Return f_half) f_half ["TENSE"; "UNKNOWN_FEATURE"].

Definition failing_model : model_info :=
  mkmodel (fun _ => Raise (ModelError "shape mismatch")) f_half feature_names.

(** The sample answers with a health label outside the vocabulary. *)
Definition bad_health_answers : answers :=
  mkanswers (mkdate 1970 1 1) (mkdate 2020 1 1) "Yes" "No" "Yes" "No"
    "Sometimes" "Fairly Often" "Never" "Very Often" "No" "Bad".

(** What [report] adds to the page. *)
Definition report_widgets (thr prob : spec_float) (label : Z) : list widget :=
  [st_subheader "Results"; st_write_probability prob;
   if label =? 1 then st_error_at_risk else st_success_not_at_risk;
   st_plotly_chart (float_mul prob f100) (float_mul thr f100)].

(** *** Vocabulary of the further properties *)

(** The date [n] years after [d], with the month and the day of [d]. *)
Definition anniversary (d : date) (n : Z) : date :=
  mkdate (year d + n) (month d) (day d).

(** Lines 39 to 48: both date widgets are created with
    [min_value=dt.date(1910, 1, 1)] and [max_value=dt.date.today()]. *)
Definition date_input_min : date := mkdate 1910 1 1.

Definition in_date_input (today d : date) : Prop :=
  date_leb date_input_min d = true /\ date_leb d today = true.

(** [{v: k for k, v in d.items()}] on the items of any dictionary. *)
Definition invert_items (items : list (Z * string)) : gmap string Z :=
  dict_of_items ((fun kv => (kv.2, kv.1)) <$> items).

(** The choices of the widgets: [["No", "Yes"]] for the radio buttons,
    [list(scale_labels.values())] for the four stress questions and
    [list(health_map.keys())] for the health question. *)
Definition radio_options : list string := ["No"; "Yes"].

Definition scale_options : list string := scale_labels.*2.

Definition health_map_items : list (string * Z) :=
  [("Excellent", 1); ("Very Good", 2); ("Good", 3); ("Fair", 4); ("Poor", 5)].

Definition health_options : list string := health_map_items.*1.

(** Answers whose five labels are among the choices of their select boxes. *)
Definition from_select_boxes (a : answers) : Prop :=
  health a ∈ health_options /\ control a ∈ scale_options /\
  confid a ∈ scale_options /\ yourway a ∈ scale_options /\
  overcome a ∈ scale_options.

(** The row the block builds from answers whose labels have codes. *)
Definition assembled_row (a : answers) : gmap string Z :=
  feature_row (tense_val a) (irritab_val a) (scale_reverse !!! control a)
    (calculate_p_stress (scale_reverse !!! control a) (scale_reverse !!! confid a)
       (scale_reverse !!! yourway a) (scale_reverse !!! overcome a))
    (scale_reverse !!! yourway a) (nisweat_val a)
    (calculate_age_r_lmp (dob a) (lmp_date a)) (smoke_val a) (diffislp_val a)
    (health_map !!! health a).

(** The columns [cols] of that row, in order. *)
Definition assembled_frame (a : answers) (cols : list string) : frame :=
  (fun c => (c, assembled_row a !!! c)) <$> cols.

(** What the block does once the frame is there: call the pipeline and
    compare with the threshold. *)
Definition scored (m : model_info) (f : frame) : result (spec_float * Z) :=
  match log_reg_model m f with
  | Return prob => Return (prob, pred prob (threshold m))
  | Raise e => Raise e
  end.

(** The answers [a] with other labels on the two stress questions that are
    no column of the row. *)
Definition with_confid_overcome (a : answers) (c o : string) : answers :=
  mkanswers (dob a) (lmp_date a) (diffislp a) (nisweat a) (tense a) (irritab a)
    (control a) c (yourway a) o (smoke_r a) (health a).

(** An artifact whose pipeline answers not-a-number. *)
Definition nan_model : model_info :=
  mkmodel (fun _ => Return S754_nan) f_half feature_names.

(** * Properties *)

(** ** Helper lemmas on tuple comparison *)

Lemma tuple_ltb_pair (a b c d : Z) :
  tuple_ltb [a; b] [c; d] = true <-> a < c \/ (a = c /\ b < d).
Proof.
  simpl. destruct (Z.eqb_spec a c) as [->|Hne].
  - destruct (Z.eqb_spec b d) as [->|Hbd].
    + split; [discriminate | lia].
    + rewrite Z.ltb_lt. lia.
  - rewrite Z.ltb_lt. lia.
Qed.

Lemma date_ltb_spec (a b : date) :
  date_ltb a b = true <->
  year a < year b \/
  (year a = year b /\ (month a < month b \/ (month a = month b /\ day a < day b))).
Proof.
  unfold date_ltb. cbn [tuple_ltb].
  destruct (Z.eqb_spec (year a) (year b)) as [Hy|Hy].
  - pose proof (tuple_ltb_pair (month a) (day a) (month b) (day b)) as H.
    cbn [tuple_ltb] in H. rewrite H. lia.
  - rewrite Z.ltb_lt. lia.
Qed.

(** ** Age at the last menstrual period *)

Lemma age_before_birthday (dob lmp : date) :
  before_birthday dob lmp ->
  calculate_age_r_lmp dob lmp = year lmp - year dob - 1.
Proof.
  intros H. unfold calculate_age_r_lmp.
  apply tuple_ltb_pair in H. rewrite H. reflexivity.
Qed.

Lemma age_from_birthday (dob lmp : date) :
  ~ before_birthday dob lmp ->
  calculate_age_r_lmp dob lmp = year lmp - year dob.
Proof.
  intros H. unfold calculate_age_r_lmp.
  destruct (tuple_ltb _ _) eqn:E.
  - apply tuple_ltb_pair in E. contradiction.
  - simpl. lia.
Qed.

Lemma before_birthday_dec (dob lmp : date) :
  before_birthday dob lmp \/ ~ before_birthday dob lmp.
Proof. unfold before_birthday. lia. Qed.

(** With the dates in order the age is not negative. *)
Lemma age_nonneg (dob lmp : date) :
  date_leb dob lmp = true -> 0 <= calculate_age_r_lmp dob lmp.
Proof.
  unfold date_leb. intros H. apply negb_true_iff in H.
  assert (Hn : ~ (date_ltb lmp dob = true)) by (rewrite H; discriminate).
  rewrite date_ltb_spec in Hn.
  destruct (before_birthday_dec dob lmp) as [Hb|Hb].
  - rewrite (age_before_birthday _ _ Hb). unfold before_birthday in Hb. lia.
  - rewrite (age_from_birthday _ _ Hb). unfold before_birthday in Hb. lia.
Qed.

(** C1: for a date of birth and a reference date that does not precede it,
    [calculate_age_r_lmp] is the difference of the years, less one exactly
    when (month, day) of the reference date is below (month, day) of the date
    of birth; born on 1980-05-15, the age is 39 on 2020-05-14, 40 on
    2020-05-15 and 40 on 2020-05-16. *)
Theorem calculate_age_r_lmp_spec (dob lmp : date) :
  date_leb dob lmp = true ->
  (before_birthday dob lmp ->
     calculate_age_r_lmp dob lmp = year lmp - year dob - 1) /\
  (~ before_birthday dob lmp ->
     calculate_age_r_lmp dob lmp = year lmp - year dob) /\
  calculate_age_r_lmp (mkdate 1980 5 15) (mkdate 2020 5 14) = 39 /\
  calculate_age_r_lmp (mkdate 1980 5 15) (mkdate 2020 5 15) = 40 /\
  calculate_age_r_lmp (mkdate 1980 5 15) (mkdate 2020 5 16) = 40.
Proof.
  intros _. split; [apply age_before_birthday|].
  split; [apply age_from_birthday|].
  repeat split; reflexivity.
Qed.

Lemma calculate_age_r_lmp_spec_witness :
  date_leb (mkdate 1980 5 15) (mkdate 2020 5 14) = true /\
  calculate_age_r_lmp (mkdate 1980 5 15) (mkdate 2020 5 14) = 2020 - 1980 - 1.
Proof.
  split; [reflexivity|].
  destruct (calculate_age_r_lmp_spec (mkdate 1980 5 15) (mkdate 2020 5 14))
    as [Hbefore _]; [reflexivity|].
  apply Hbefore. right. simpl. lia.
Defined.

(** C8: when the reference date strictly precedes the date of birth the
    function still returns, and what it returns is negative. *)
Theorem calculate_age_r_lmp_negative (dob lmp : date) :
  date_ltb lmp dob = true ->
  exists age : Z, calculate_age_r_lmp dob lmp = age /\ age < 0.
Proof.
  intros H. eexists. split; [reflexivity|].
  apply date_ltb_spec in H.
  destruct (before_birthday_dec dob lmp) as [Hb|Hb].
  - rewrite (age_before_birthday _ _ Hb). lia.
  - rewrite (age_from_birthday _ _ Hb). unfold before_birthday in Hb. lia.
Qed.

Lemma calculate_age_r_lmp_negative_witness :
  exists age : Z,
    calculate_age_r_lmp (mkdate 2000 6 15) (mkdate 2000 3 1) = age /\ age < 0.
Proof.
  apply (calculate_age_r_lmp_negative (mkdate 2000 6 15) (mkdate 2000 3 1)).
  reflexivity.
Defined.

(** ** Perceived stress *)

(** C5: on four codes between 1 and 5 [calculate_p_stress] is their plain
    sum, between 4 and 20; 1+1+1+1 = 4, 5+5+5+5 = 20, 2+3+4+5 = 14. *)
Theorem calculate_p_stress_range (a b c d : Z) :
  likert a -> likert b -> likert c -> likert d ->
  calculate_p_stress a b c d = a + b + c + d /\
  4 <= calculate_p_stress a b c d <= 20 /\
  calculate_p_stress 1 1 1 1 = 4 /\
  calculate_p_stress 5 5 5 5 = 20 /\
  calculate_p_stress 2 3 4 5 = 14.
Proof.
  unfold likert, calculate_p_stress. intros Ha Hb Hc Hd.
  repeat split; lia.
Qed.

Lemma calculate_p_stress_range_witness :
  4 <= calculate_p_stress 2 3 4 5 <= 20.
Proof.
  destruct (calculate_p_stress_range 2 3 4 5) as [_ [Hrange _]];
    unfold likert; try lia.
Defined.

Lemma sum_list_perm (l l' : list Z) : Permutation l l' -> sum_list l = sum_list l'.
Proof.
  induction 1 as [|x l l' _ IH|x y l|l l' l'' _ IH1 _ IH2]; simpl.
  - reflexivity.
  - rewrite IH. reflexivity.
  - lia.
  - congruence.
Qed.

Lemma calculate_p_stress_sum_list (a b c d : Z) :
  calculate_p_stress a b c d = sum_list [a; b; c; d].
Proof. unfold calculate_p_stress. simpl. lia. Qed.

(** C10: [calculate_p_stress] gives the same score on every reordering of
    its four arguments. *)
Theorem calculate_p_stress_perm (a b c d a' b' c' d' : Z) :
  Permutation [a; b; c; d] [a'; b'; c'; d'] ->
  calculate_p_stress a b c d = calculate_p_stress a' b' c' d'.
Proof.
  intros H. rewrite !calculate_p_stress_sum_list. apply sum_list_perm, H.
Qed.

Lemma calculate_p_stress_perm_witness :
  calculate_p_stress 2 3 4 5 = calculate_p_stress 5 2 4 3.
Proof.
  apply calculate_p_stress_perm.
  apply (Permutation_trans (l' := [2; 3; 5; 4])).
  - do 2 apply Permutation_skip. apply Permutation_swap.
  - apply (Permutation_trans (l' := [2; 5; 3; 4])).
    + apply Permutation_skip. apply Permutation_swap.
    + apply (Permutation_trans (l' := [5; 2; 3; 4])).
      * apply Permutation_swap.
      * do 2 apply Permutation_skip. apply Permutation_swap.
Defined.

(** ** Dictionaries built from a list of items *)

Lemma fold_insert_lookup_None {V : Type} (items : list (string * V))
    (d : gmap string V) (k : string) :
  fold_left (fun d kv => <[kv.1 := kv.2]> d) items d !! k = None <->
  d !! k = None /\ k ∉ items.*1.
Proof.
  revert d. induction items as [|[k' v'] items IH]; intros d; simpl.
  - split; [intros H; split; [exact H | apply not_elem_of_nil] | tauto].
  - rewrite IH, not_elem_of_cons, lookup_insert_None. simpl.
    intuition congruence.
Qed.

Lemma dict_of_items_lookup_None {V : Type} (items : list (string * V)) (k : string) :
  dict_of_items items !! k = None <-> k ∉ items.*1.
Proof.
  unfold dict_of_items. rewrite fold_insert_lookup_None, lookup_empty. tauto.
Qed.

Lemma getitem_missing {V : Type} (items : list (string * V)) (k : string) :
  k ∉ items.*1 -> getitem (dict_of_items items) k = Raise (KeyError [k]).
Proof.
  intros H. unfold getitem. apply dict_of_items_lookup_None in H.
  rewrite H. reflexivity.
Qed.

(** ** The normalizer *)

(** C3, as the script has it: on each of the five yes/no questions the
    answer "Yes" gives 2 and every other string, "No" and "maybe" alike,
    gives 1; no answer to such a question is rejected. *)
Theorem binary_codes (a : answers) :
  (diffislp a = "Yes" -> diffislp_val a = 2) /\
  (diffislp a <> "Yes" -> diffislp_val a = 1) /\
  (nisweat a = "Yes" -> nisweat_val a = 2) /\
  (nisweat a <> "Yes" -> nisweat_val a = 1) /\
  (tense a = "Yes" -> tense_val a = 2) /\
  (tense a <> "Yes" -> tense_val a = 1) /\
  (irritab a = "Yes" -> irritab_val a = 2) /\
  (irritab a <> "Yes" -> irritab_val a = 1) /\
  (smoke_r a = "Yes" -> smoke_val a = 2) /\
  (smoke_r a <> "Yes" -> smoke_val a = 1).
Proof.
  unfold diffislp_val, nisweat_val, tense_val, irritab_val, smoke_val.
  repeat split; intros H;
    match goal with
    | |- context [String.eqb ?x ?y] => destruct (String.eqb_spec x y)
    end; congruence.
Qed.

Lemma binary_codes_witness :
  diffislp_val sample_answers = 2 /\ nisweat_val sample_answers = 1 /\
  diffislp_val maybe_answers = 1.
Proof.
  pose proof (binary_codes sample_answers) as Hs.
  pose proof (binary_codes maybe_answers) as Hm.
  split; [apply Hs; reflexivity|].
  split; [apply Hs; discriminate|].
  apply Hm; discriminate.
Defined.

(** C3, as the specification has it, fails: with "maybe" as the answer on
    sleep the block raises nothing, the code of the answer is 1 and a
    probability and a label come out. *)
Lemma binary_maybe_not_rejected :
  ~ (forall (a : answers) (w : world),
       diffislp a <> "Yes" -> diffislp a <> "No" ->
       exists e, (score a w).1 = Raise e).
Proof.
  intros H.
  destruct (H maybe_answers sample_world) as [e He]; [discriminate..|].
  vm_compute in He. discriminate.
Qed.

(** C4: the five scale labels have the codes 1 to 5 in [scale_reverse], the
    five health labels the codes 1 to 5 in [health_map], and looking up any
    other string raises [KeyError]. *)
Theorem label_codes :
  (getitem scale_reverse "Never" = Return 1 /\
   getitem scale_reverse "Almost Never" = Return 2 /\
   getitem scale_reverse "Sometimes" = Return 3 /\
   getitem scale_reverse "Fairly Often" = Return 4 /\
   getitem scale_reverse "Very Often" = Return 5) /\
  (getitem health_map "Excellent" = Return 1 /\
   getitem health_map "Very Good" = Return 2 /\
   getitem health_map "Good" = Return 3 /\
   getitem health_map "Fair" = Return 4 /\
   getitem health_map "Poor" = Return 5) /\
  (forall s : string,
     s ∉ likert_labels -> getitem scale_reverse s = Raise (KeyError [s])) /\
  (forall s : string,
     s ∉ health_labels -> getitem health_map s = Raise (KeyError [s])).
Proof.
  split; [repeat split; reflexivity|].
  split; [repeat split; reflexivity|].
  split; intros s Hs; apply getitem_missing; exact Hs.
Qed.

Lemma label_codes_witness :
  getitem scale_reverse "maybe" = Raise (KeyError ["maybe"]) /\
  getitem health_map "maybe" = Raise (KeyError ["maybe"]).
Proof.
  destruct label_codes as (_ & _ & Hscale & Hhealth).
  split; [apply Hscale | apply Hhealth]; unfold likert_labels, health_labels;
    rewrite !not_elem_of_cons; repeat split;
    try discriminate; apply not_elem_of_nil.
Defined.

(** ** The assembler *)

Lemma select_columns_Some (row : gmap string Z) (cols : list string) :
  (forall c, c ∈ cols -> is_Some (row !! c)) ->
  select_columns row cols = Some ((fun c => (c, row !!! c)) <$> cols).
Proof.
  induction cols as [|c cols IH]; intros Hall; simpl; [reflexivity|].
  destruct (Hall c) as [v Hv]; [apply elem_of_cons; left; reflexivity|].
  rewrite Hv, IH.
  - rewrite (lookup_total_correct _ _ _ Hv). reflexivity.
  - intros c' Hc'. apply Hall, elem_of_cons. right. exact Hc'.
Qed.

Lemma select_columns_None (row : gmap string Z) (cols : list string) (c : string) :
  c ∈ cols -> row !! c = None -> select_columns row cols = None.
Proof.
  induction cols as [|c' cols IH]; intros Hin Hc.
  - exfalso. revert Hin. apply not_elem_of_nil.
  - simpl. apply elem_of_cons in Hin as [->|Hin].
    + rewrite Hc. reflexivity.
    + rewrite (IH Hin Hc). destruct (row !! c'); reflexivity.
Qed.

Lemma frame_getitem_present (row : gmap string Z) (cols : list string) :
  (forall c, c ∈ cols -> is_Some (row !! c)) ->
  frame_getitem row cols = Return ((fun c => (c, row !!! c)) <$> cols).
Proof.
  intros H. unfold frame_getitem. rewrite (select_columns_Some _ _ H). reflexivity.
Qed.

Lemma filter_all (P : string -> Prop) `{!forall x, Decision (P x)} (l : list string) :
  length (filter P l) = length l -> filter P l = l.
Proof.
  induction l as [|x l IH]; [reflexivity|].
  rewrite filter_cons. destruct (decide (P x)) as [Hx|Hx]; simpl; intros Hlen.
  - rewrite IH; [reflexivity | lia].
  - pose proof (length_filter P l). lia.
Qed.

Lemma missing_columns_elem (row : gmap string Z) (cols : list string) (c : string) :
  c ∈ missing_columns row cols <-> c ∈ cols /\ row !! c = None.
Proof.
  unfold missing_columns. cbv zeta.
  destruct (decide _) as [Hall|_].
  - apply filter_all in Hall. rewrite <- Hall at 1.
    rewrite list_elem_of_filter. tauto.
  - rewrite elem_of_remove_dups, list_elem_of_filter. tauto.
Qed.

Lemma frame_getitem_absent (row : gmap string Z) (cols : list string) (c : string) :
  c ∈ cols -> row !! c = None ->
  frame_getitem row cols = Raise (KeyError (missing_columns row cols)) /\
  c ∈ missing_columns row cols.
Proof.
  intros Hin Hc. unfold frame_getitem.
  rewrite (select_columns_None _ _ _ Hin Hc). split; [reflexivity|].
  apply missing_columns_elem. split; assumption.
Qed.

Section Assembler.

Variables tense_v irritab_v control_v p_stress yourway_v nisweat_v age_r_lmp
  smoke_v diffislp_v health_v : Z.

Local Abbreviation row :=
  (feature_row tense_v irritab_v control_v p_stress yourway_v nisweat_v
     age_r_lmp smoke_v diffislp_v health_v).

Lemma feature_row_lookup_None (c : string) :
  row !! c = None <-> c ∉ feature_names.
Proof. apply dict_of_items_lookup_None. Qed.

Lemma feature_row_lookup_Some (c : string) :
  c ∈ feature_names -> is_Some (row !! c).
Proof.
  intros H. destruct (row !! c) eqn:E; [eexists; reflexivity|].
  apply feature_row_lookup_None in E. contradiction.
Qed.

Lemma feature_row_values :
  row !! "TENSE" = Some tense_v /\ row !! "IRRITAB" = Some irritab_v /\
  row !! "CONTROL" = Some control_v /\ row !! "P_STRESS" = Some p_stress /\
  row !! "YOURWAY" = Some yourway_v /\ row !! "NISWEAT" = Some nisweat_v /\
  row !! "AGE_R_LMP" = Some age_r_lmp /\ row !! "SMOKE_R" = Some smoke_v /\
  row !! "DIFFISLP" = Some diffislp_v /\ row !! "HEALTH" = Some health_v.
Proof. repeat split; vm_compute; reflexivity. Qed.

(** C6: on the row of the ten features, a list of column names that are all
    among the ten gives the named values in the order of the list, so that a
    reordered list gives the same pairs reordered; a list with a name that is
    not one of the ten raises [KeyError], as with "UNKNOWN_FEATURE". *)
Theorem frame_getitem_spec (cols : list string) :
  (row !! "TENSE" = Some tense_v /\ row !! "IRRITAB" = Some irritab_v /\
   row !! "CONTROL" = Some control_v /\ row !! "P_STRESS" = Some p_stress /\
   row !! "YOURWAY" = Some yourway_v /\ row !! "NISWEAT" = Some nisweat_v /\
   row !! "AGE_R_LMP" = Some age_r_lmp /\ row !! "SMOKE_R" = Some smoke_v /\
   row !! "DIFFISLP" = Some diffislp_v /\ row !! "HEALTH" = Some health_v) /\
  ((forall c, c ∈ cols -> c ∈ feature_names) ->
   frame_getitem row cols = Return ((fun c => (c, row !!! c)) <$> cols) /\
   forall cols' : list string, cols ≡ₚ cols' ->
     exists out out' : frame,
       frame_getitem row cols = Return out /\
       frame_getitem row cols' = Return out' /\
       out.*1 = cols /\ out'.*1 = cols' /\ out ≡ₚ out') /\
  (forall c, c ∈ cols -> c ∉ feature_names ->
   exists missing : list string,
     frame_getitem row cols = Raise (KeyError missing) /\ c ∈ missing) /\
  frame_getitem row ["HEALTH"; "UNKNOWN_FEATURE"; "TENSE"]
  = Raise (KeyError ["UNKNOWN_FEATURE"]).
Proof.
  split; [exact feature_row_values|].
  split; [|split].
  - intros Hall.
    assert (Hcols : forall l : list string,
               (forall c, c ∈ l -> c ∈ feature_names) ->
               frame_getitem row l = Return ((fun c => (c, row !!! c)) <$> l)).
    { intros l Hl. apply frame_getitem_present.
      intros c Hc. apply feature_row_lookup_Some, Hl, Hc. }
    split; [apply Hcols, Hall|].
    intros cols' Hperm.
    exists ((fun c => (c, row !!! c)) <$> cols),
           ((fun c => (c, row !!! c)) <$> cols').
    split; [apply Hcols, Hall|].
    split; [apply Hcols; intros c Hc; apply Hall; rewrite Hperm; exact Hc|].
    rewrite <- !list_fmap_compose.
    split; [apply list_fmap_id|]. split; [apply list_fmap_id|].
    rewrite Hperm. reflexivity.
  - intros c Hin Hout. exists (missing_columns row cols).
    apply frame_getitem_absent; [exact Hin|].
    apply feature_row_lookup_None, Hout.
  - vm_compute. reflexivity.
Qed.

End Assembler.

Lemma frame_getitem_spec_witness :
  frame_getitem (feature_row 2 1 3 13 1 1 50 1 2 3) ["HEALTH"; "P_STRESS"; "TENSE"]
  = Return [("HEALTH", 3); ("P_STRESS", 13); ("TENSE", 2)] /\
  exists missing : list string,
    frame_getitem (feature_row 2 1 3 13 1 1 50 1 2 3) ["TENSE"; "UNKNOWN_FEATURE"]
    = Raise (KeyError missing) /\ "UNKNOWN_FEATURE" ∈ missing.
Proof.
  split.
  - destruct (frame_getitem_spec 2 1 3 13 1 1 50 1 2 3 ["HEALTH"; "P_STRESS"; "TENSE"])
      as (_ & Hin & _).
    destruct Hin as [Hout _].
    + intros c Hc. unfold feature_names.
      repeat (apply elem_of_cons in Hc as [->|Hc]; [set_solver|]).
      exfalso. revert Hc. apply not_elem_of_nil.
    + rewrite Hout. vm_compute. reflexivity.
  - destruct (frame_getitem_spec 2 1 3 13 1 1 50 1 2 3 ["TENSE"; "UNKNOWN_FEATURE"])
      as (_ & _ & Hmiss & _).
    apply Hmiss; [set_solver|].
    unfold feature_names. rewrite !not_elem_of_cons.
    repeat split; try discriminate. apply not_elem_of_nil.
Defined.

(** ** The threshold test *)

Lemma digits2_pos_size (m : positive) : digits2_pos m = Pos.size m.
Proof. induction m as [m IH|m IH|]; simpl; rewrite ?IH; reflexivity. Qed.

Lemma mantissa_lt_pow (m : positive) : Z.pos m < 2 ^ Z.pos (digits2_pos m).
Proof.
  rewrite digits2_pos_size. pose proof (Pos.size_gt m) as H.
  apply Pos2Z.pos_lt_pos in H. rewrite Pos2Z.inj_pow in H. exact H.
Qed.

Lemma mantissa_ge_pow (m : positive) : 2 ^ (Z.pos (digits2_pos m) - 1) <= Z.pos m.
Proof.
  rewrite digits2_pos_size. pose proof (Pos.size_le m) as H.
  apply Pos2Z.pos_le_pos in H. rewrite Pos2Z.inj_pow in H.
  replace (Z.pos (Pos.size m)) with (Z.succ (Z.pos (Pos.size m) - 1)) in H by lia.
  rewrite Z.pow_succ_r in H by lia. lia.
Qed.


(** A canonical binary64: either the least exponent with at most 53 bits, or
    a larger exponent with exactly 53 bits. *)
Lemma bounded_inv (m : positive) (e : Z) :
  bounded prec emax m e = true ->
  -1074 <= e /\ Z.pos m < 2 ^ 53 /\ (-1074 < e -> 2 ^ 52 <= Z.pos m).
Proof.
  unfold bounded, canonical_mantissa, fexp, emin, prec, emax.
  rewrite andb_true_iff, Z.eqb_eq, Z.leb_le. intros [Hc _].
  change (Z.max (Z.pos (digits2_pos m) + e - 53) (3 - 1024 - 53) = e) in Hc.
  assert (Hd : Z.pos (digits2_pos m) <= 53 /\ -1074 <= e /\
               (-1074 < e -> Z.pos (digits2_pos m) = 53)) by lia.
  destruct Hd as (Hd & He & Hn). clear Hc.
  pose proof (mantissa_lt_pow m) as Hlt.
  pose proof (mantissa_ge_pow m) as Hge.
  split; [exact He|]. split.
  - apply (Z.lt_le_trans _ _ _ Hlt). apply Z.pow_le_mono_r; lia.
  - intros He'. rewrite (Hn He') in Hge. exact Hge.
Qed.

Lemma scaled_lt_of_exponent_lt (m1 m2 : positive) (e1 e2 : Z) :
  bounded prec emax m1 e1 = true -> bounded prec emax m2 e2 = true ->
  e1 < e2 ->
  Z.pos m1 * 2 ^ (e1 + 1074) < Z.pos m2 * 2 ^ (e2 + 1074).
Proof.
  intros H1 H2 He.
  apply bounded_inv in H1 as (He1 & Hm1 & _).
  apply bounded_inv in H2 as (He2 & _ & Hm2).
  specialize (Hm2 ltac:(lia)).
  assert (Hpa : 0 < 2 ^ (e1 + 1074)) by (apply Z.pow_pos_nonneg; lia).
  assert (Hstep : 2 * 2 ^ (e1 + 1074) <= 2 ^ (e2 + 1074)).
  { rewrite <- Z.pow_succ_r by lia. apply Z.pow_le_mono_r; lia. }
  change (2 ^ 53) with (2 ^ 52 * 2) in Hm1.
  assert (H52 : 0 < 2 ^ 52) by reflexivity.
  set (a := 2 ^ (e1 + 1074)) in *. set (b := 2 ^ (e2 + 1074)) in *.
  set (k := 2 ^ 52) in *. nia.
Qed.

Lemma ulps_finite_pos (m : positive) (e : Z) :
  -1074 <= e -> 0 < Z.pos m * 2 ^ (e + 1074).
Proof.
  intros He. apply Z.mul_pos_pos; [lia|]. apply Z.pow_pos_nonneg; lia.
Qed.

(** On numbers that are not negative, [<=] on floats is [<=] on values. *)
Lemma SFleb_ulps (x y : spec_float) :
  is_number x = true -> is_number y = true ->
  0 <= ulps x -> 0 <= ulps y ->
  SFleb x y = true <-> ulps x <= ulps y.
Proof.
  unfold SFleb.
  destruct x as [sx|sx| |sx mx ex], y as [sy|sy| |sy my ey]; simpl;
    try discriminate; intros Hx Hy Hx0 Hy0.
  - split; [lia | reflexivity].
  - pose proof (bounded_inv _ _ Hy) as (He & _).
    pose proof (ulps_finite_pos my ey He) as Hpos.
    destruct sy; simpl in *; [lia|]. split; [lia | reflexivity].
  - pose proof (bounded_inv _ _ Hx) as (He & _).
    pose proof (ulps_finite_pos mx ex He) as Hpos.
    destruct sx; simpl in *; [lia|]. split; [discriminate | lia].
  - pose proof (bounded_inv _ _ Hx) as (Hex & _).
    pose proof (bounded_inv _ _ Hy) as (Hey & _).
    pose proof (ulps_finite_pos mx ex Hex) as Hpx.
    pose proof (ulps_finite_pos my ey Hey) as Hpy.
    destruct sx; simpl in *; [lia|]. destruct sy; simpl in *; [lia|].
    destruct (Z.compare_spec ex ey) as [Heq|Hlt|Hgt].
    + subst ey. change (Pos.compare_cont Eq mx my) with (Pos.compare mx my).
      assert (Hp : 0 < 2 ^ (ex + 1074)) by (apply Z.pow_pos_nonneg; lia).
      destruct (Pos.compare_spec mx my) as [Hm|Hm|Hm].
      * subst. split; [lia | reflexivity].
      * apply Pos2Z.pos_lt_pos in Hm. split; [nia | reflexivity].
      * apply Pos2Z.pos_lt_pos in Hm. split; [discriminate | nia].
    + pose proof (scaled_lt_of_exponent_lt _ _ _ _ Hx Hy Hlt).
      split; [lia | reflexivity].
    + pose proof (scaled_lt_of_exponent_lt _ _ _ _ Hy Hx Hgt).
      split; [discriminate | lia].
Qed.

Lemma Qle_same_den (a b : Z) (d : positive) : (a # d <= b # d)%Q <-> a <= b.
Proof.
  unfold Qle. simpl. split; intros H.
  - apply Z.mul_le_mono_pos_r in H; [exact H | lia].
  - apply Z.mul_le_mono_pos_r; [lia | exact H].
Qed.

Lemma float_value_le (x y : spec_float) :
  (float_value x <= float_value y)%Q <-> ulps x <= ulps y.
Proof. apply Qle_same_den. Qed.

Lemma float_value_nonneg (x : spec_float) :
  (0 <= float_value x)%Q <-> 0 <= ulps x.
Proof.
  unfold float_value, Qle. simpl. rewrite Z.mul_1_r. reflexivity.
Qed.

Lemma float_ge_value (p t : spec_float) :
  probability p -> probability t ->
  float_ge p t = true <-> (float_value t <= float_value p)%Q.
Proof.
  intros [Hp [Hp0 _]] [Ht [Ht0 _]]. unfold float_ge.
  rewrite float_value_le. apply float_value_nonneg in Hp0, Ht0.
  apply SFleb_ulps; assumption.
Qed.

(** The three sample floats are the binary64 numbers nearest to 0.5, 0.4999
    and 0.5001: the first is exact, the others are within 2^-54. *)
Lemma sample_floats_values :
  (float_value f_half == 1 # 2)%Q /\
  ((4999 # 10000) - (1 # 2 ^ 54) <= float_value f_0_4999
   <= (4999 # 10000) + (1 # 2 ^ 54))%Q /\
  ((5001 # 10000) - (1 # 2 ^ 54) <= float_value f_0_5001
   <= (5001 # 10000) + (1 # 2 ^ 54))%Q.
Proof. repeat split; vm_compute; intros H; discriminate H. Qed.

Lemma sample_floats_probabilities :
  probability f_half /\ probability f_0_4999 /\ probability f_0_5001.
Proof.
  unfold probability.
  repeat split; try reflexivity; vm_compute; intros H; discriminate H.
Qed.

(** C2: for a probability and a threshold between 0 and 1 the label is 1
    when the probability is at least the threshold and 0 otherwise; equality
    gives 1; with the threshold 0.5 the probabilities 0.5, 0.4999 and 0.5001
    give 1, 0 and 1. *)
Theorem pred_threshold (p t : spec_float) :
  probability p -> probability t ->
  ((float_value t <= float_value p)%Q -> pred p t = 1) /\
  ((float_value p < float_value t)%Q -> pred p t = 0) /\
  (p = t -> pred p t = 1) /\
  pred f_half f_half = 1 /\
  pred f_0_4999 f_half = 0 /\
  pred f_0_5001 f_half = 1.
Proof.
  intros Hp Ht. pose proof (float_ge_value p t Hp Ht) as Hge.
  unfold pred.
  split; [|split; [|split]].
  - intros H. apply Hge in H. rewrite H. reflexivity.
  - intros H. destruct (float_ge p t) eqn:E; [|reflexivity].
    exfalso. apply (Qlt_not_le _ _ H). apply Hge. reflexivity.
  - intros ->. destruct Hge as [_ Hge]. rewrite Hge; [reflexivity|].
    apply Qle_refl.
  - repeat split; reflexivity.
Qed.

Lemma pred_threshold_witness :
  probability f_0_4999 /\ probability f_half /\
  (float_value f_0_4999 < float_value f_half)%Q /\
  pred f_0_4999 f_half = 0.
Proof.
  destruct sample_floats_probabilities as (Hhalf & Hlow & _).
  split; [exact Hlow|]. split; [exact Hhalf|].
  assert (Hlt : (float_value f_0_4999 < float_value f_half)%Q)
    by (vm_compute; reflexivity).
  split; [exact Hlt|].
  destruct (pred_threshold f_0_4999 f_half Hlow Hhalf) as (_ & Hbelow & _).
  apply Hbelow, Hlt.
Defined.

(** ** The prediction block *)

(** Reasoning on a sequence of statements, one statement at a time. *)
Lemma bindM_eval_Return {A B : Type} (r : result A) (a : A) (k : A -> M B) (w : world) :
  r = Return a -> bindM (eval r) k w = k a w.
Proof. intros ->. reflexivity. Qed.

Lemma bindM_eval_Raise {A B : Type} (r : result A) (e : exn) (k : A -> M B) (w : world) :
  r = Raise e -> bindM (eval r) k w = (Raise e, w).
Proof. intros ->. reflexivity. Qed.

Lemma bindM_global {A B : Type} (proj : model_info -> A) (k : A -> M B) (w : world) :
  bindM (global proj) k w = k (proj (artifact w)) w.
Proof. reflexivity. Qed.

Ltac step_eval :=
  match goal with
  | |- context [bindM (eval ?r) ?k ?w] =>
      let E := fresh "E" in
      destruct r eqn:E;
      [ rewrite (bindM_eval_Return _ _ k w eq_refl)
      | rewrite (bindM_eval_Raise _ _ k w eq_refl) ]
  end.

(** The scoring chain writes nothing: it leaves the world as it found it. *)
Lemma score_world (a : answers) (w : world) : (score a w).2 = w.
Proof.
  unfold score.
  repeat first [ rewrite bindM_global | step_eval; [|reflexivity] ].
  reflexivity.
Qed.

(** The report never raises; it adds four widgets and keeps the artifact. *)
Lemma report_run (prob : spec_float) (label : Z) (w : world) :
  report prob label w
  = (Return tt,
     mkworld (artifact w)
       (page w ++ report_widgets (threshold (artifact w)) prob label)).
Proof.
  unfold report, report_widgets, bindM, show, global. simpl.
  destruct (label =? 1); simpl; rewrite <- !app_assoc; reflexivity.
Qed.

Lemma prediction_body_run (a : answers) (w : world) :
  prediction_body a w
  = match (score a w).1 with
    | Return r =>
        (Return tt,
         mkworld (artifact w)
           (page w ++ report_widgets (threshold (artifact w)) r.1 r.2))
    | Raise e => (Raise e, w)
    end.
Proof.
  unfold prediction_body, bindM.
  pose proof (score_world a w) as Hw.
  destruct (score a w) as [[r|e] w1]; simpl in *; subst w1.
  - apply report_run.
  - reflexivity.
Qed.

Lemma predict_risk_run (a : answers) (w : world) :
  predict_risk a w
  = (Return tt,
     mkworld (artifact w)
       (page w ++
        match (score a w).1 with
        | Return r => report_widgets (threshold (artifact w)) r.1 r.2
        | Raise e => [st_error_processing e]
        end)).
Proof.
  unfold predict_risk, try_except. rewrite prediction_body_run.
  destruct (score a w).1; reflexivity.
Qed.

(** C9: whatever the body of the [try] raises, the block itself returns
    normally, the only thing it adds to the page is the error message made
    from the exception, and the artifact is the one it started with; this
    holds whether the failure comes from a label, from the columns or from
    the pipeline. *)
Theorem predict_risk_catches (a : answers) (w : world) :
  (predict_risk a w).1 = Return tt /\
  artifact (predict_risk a w).2 = artifact w /\
  (forall e : exn,
     (prediction_body a w).1 = Raise e ->
     (predict_risk a w).2 = mkworld (artifact w) (page w ++ [st_error_processing e])) /\
  (forall e : exn,
     (score a w).1 = Raise e -> (prediction_body a w).1 = Raise e) /\
  (exists s, (score bad_health_answers sample_world).1 = Raise (KeyError s)) /\
  (exists s, (score sample_answers (mkworld skewed_model [])).1 = Raise (KeyError s)) /\
  (exists s, (score sample_answers (mkworld failing_model [])).1 = Raise (ModelError s)).
Proof.
  rewrite predict_risk_run. split; [reflexivity|]. split; [reflexivity|].
  split; [|split].
  - intros e. rewrite prediction_body_run.
    destruct (score a w).1 as [r|e']; simpl; [discriminate|].
    intros [= ->]. reflexivity.
  - intros e He. rewrite prediction_body_run, He. reflexivity.
  - repeat split; eexists; vm_compute; reflexivity.
Qed.

Lemma predict_risk_catches_witness :
  (predict_risk bad_health_answers sample_world).2
  = mkworld sample_model [st_error_processing (KeyError ["Bad"])].
Proof.
  destruct (predict_risk_catches bad_health_answers sample_world)
    as (_ & _ & Hcaught & _).
  apply Hcaught. vm_compute. reflexivity.
Defined.

(** * Further properties *)

(** ** Age: completed years, sign, monotonicity, range *)

Lemma date_leb_spec (a b : date) :
  date_leb a b = true <-> ~ (date_ltb b a = true).
Proof.
  unfold date_leb. destruct (date_ltb b a); simpl; intuition congruence.
Qed.

Lemma age_cases (dob lmp : date) :
  (before_birthday dob lmp /\ calculate_age_r_lmp dob lmp = year lmp - year dob - 1) \/
  (~ before_birthday dob lmp /\ calculate_age_r_lmp dob lmp = year lmp - year dob).
Proof.
  destruct (before_birthday_dec dob lmp) as [H|H].
  - left. split; [exact H | apply age_before_birthday, H].
  - right. split; [exact H | apply age_from_birthday, H].
Qed.

(** X1: the age is the number of completed years: it is the one [n] such
    that the [n]-th anniversary of the birth is not after the reference date
    and the next anniversary is. *)
Theorem age_completed_years (dob lmp : date) (n : Z) :
  date_leb (anniversary dob n) lmp = true /\
  date_ltb lmp (anniversary dob (n + 1)) = true
  <-> n = calculate_age_r_lmp dob lmp.
Proof.
  rewrite date_leb_spec, !date_ltb_spec. unfold anniversary. simpl.
  destruct (age_cases dob lmp) as [[Hb ->]|[Hb ->]];
    unfold before_birthday in Hb; lia.
Qed.

(** X2: the age is negative exactly when the reference date is before the
    date of birth. *)
Theorem age_negative_iff (dob lmp : date) :
  calculate_age_r_lmp dob lmp < 0 <-> date_ltb lmp dob = true.
Proof.
  rewrite date_ltb_spec.
  destruct (age_cases dob lmp) as [[Hb ->]|[Hb ->]];
    unfold before_birthday in Hb; lia.
Qed.

(** X3: a later reference date never gives a smaller age, and a later date
    of birth never gives a larger one. *)
Theorem age_monotone (dob dob' lmp lmp' : date) :
  date_leb lmp lmp' = true -> date_leb dob dob' = true ->
  calculate_age_r_lmp dob lmp <= calculate_age_r_lmp dob lmp' /\
  calculate_age_r_lmp dob' lmp <= calculate_age_r_lmp dob lmp.
Proof.
  rewrite !date_leb_spec, !date_ltb_spec. intros Hl Hd.
  destruct (age_cases dob lmp) as [[H1 ->]|[H1 ->]];
    destruct (age_cases dob lmp') as [[H2 ->]|[H2 ->]];
    destruct (age_cases dob' lmp) as [[H3 ->]|[H3 ->]];
    unfold before_birthday in *; lia.
Qed.

Lemma age_monotone_witness :
  calculate_age_r_lmp (mkdate 1980 5 15) (mkdate 2020 5 14)
  <= calculate_age_r_lmp (mkdate 1980 5 15) (mkdate 2020 5 15).
Proof.
  apply (age_monotone (mkdate 1980 5 15) (mkdate 1980 5 15)
           (mkdate 2020 5 14) (mkdate 2020 5 15)); reflexivity.
Defined.

(** X4: with both dates in the range of the date widgets, from 1910-01-01
    to today, the age lies between [1909 - today.year] and
    [today.year - 1910]. *)
Theorem age_in_widget_range (today dob lmp : date) :
  in_date_input today dob -> in_date_input today lmp ->
  1909 - year today <= calculate_age_r_lmp dob lmp <= year today - 1910.
Proof.
  unfold in_date_input, date_input_min.
  rewrite !date_leb_spec, !date_ltb_spec. simpl. intros [Hd1 Hd2] [Hl1 Hl2].
  destruct (age_cases dob lmp) as [[Hb ->]|[Hb ->]];
    unfold before_birthday in Hb; lia.
Qed.

Lemma age_in_widget_range_witness :
  1909 - 2026 <= calculate_age_r_lmp (mkdate 2026 11 3) (mkdate 1910 1 1)
  <= 2026 - 1910.
Proof.
  apply (age_in_widget_range (mkdate 2026 11 3) (mkdate 2026 11 3) (mkdate 1910 1 1));
    split; reflexivity.
Defined.

(** ** Dictionaries: what a lookup finds *)

Lemma fold_insert_lookup_notin {V : Type} (items : list (string * V))
    (d : gmap string V) (k : string) :
  k ∉ items.*1 ->
  fold_left (fun d kv => <[kv.1 := kv.2]> d) items d !! k = d !! k.
Proof.
  revert d. induction items as [|[k' v'] items IH]; intros d Hk; simpl.
  - reflexivity.
  - simpl in Hk. apply not_elem_of_cons in Hk as [Hne Hk].
    rewrite (IH _ Hk). apply lookup_insert_ne. congruence.
Qed.

Lemma fold_insert_lookup_Some {V : Type} (items : list (string * V))
    (d : gmap string V) (k : string) (v : V) :
  NoDup items.*1 -> (k, v) ∈ items ->
  fold_left (fun d kv => <[kv.1 := kv.2]> d) items d !! k = Some v.
Proof.
  revert d. induction items as [|[k' v'] items IH]; intros d Hnd Hin.
  - exfalso. revert Hin. apply not_elem_of_nil.
  - simpl in Hnd. apply NoDup_cons in Hnd as [Hk' Hnd]. simpl.
    apply elem_of_cons in Hin as [Heq|Hin].
    + injection Heq as -> ->.
      rewrite (fold_insert_lookup_notin _ _ _ Hk'). apply lookup_insert_eq.
    + apply IH; assumption.
Qed.

Lemma fold_insert_lookup_elem {V : Type} (items : list (string * V))
    (d : gmap string V) (k : string) (v : V) :
  fold_left (fun d kv => <[kv.1 := kv.2]> d) items d !! k = Some v ->
  (k, v) ∈ items \/ d !! k = Some v.
Proof.
  revert d. induction items as [|[k' v'] items IH]; intros d H; simpl in H.
  - right. exact H.
  - destruct (IH _ H) as [Hin|Hd].
    + left. apply elem_of_cons. right. exact Hin.
    + simpl in Hd. destruct (decide (k' = k)) as [->|Hne].
      * rewrite lookup_insert_eq in Hd. injection Hd as ->.
        left. apply elem_of_cons. left. reflexivity.
      * rewrite lookup_insert_ne in Hd by exact Hne. right. exact Hd.
Qed.

Lemma dict_of_items_lookup_Some {V : Type} (items : list (string * V))
    (k : string) (v : V) :
  NoDup items.*1 -> (k, v) ∈ items -> dict_of_items items !! k = Some v.
Proof. apply fold_insert_lookup_Some. Qed.

Lemma dict_of_items_lookup_elem {V : Type} (items : list (string * V))
    (k : string) (v : V) :
  dict_of_items items !! k = Some v -> (k, v) ∈ items.
Proof.
  intros H. apply fold_insert_lookup_elem in H as [H|H]; [exact H|].
  rewrite lookup_empty in H. discriminate.
Qed.

Lemma getitem_Return {V : Type} (d : gmap string V) (k : string) (v : V) :
  getitem d k = Return v <-> d !! k = Some v.
Proof.
  unfold getitem. destruct (d !! k); split; intros H;
    try discriminate; injection H as ->; reflexivity.
Qed.

(** X5: inverting a table of labels by the comprehension
    [{v: k for k, v in d.items()}] loses nothing when no label is used
    twice: a label is mapped to a code exactly when the table maps that code
    to that label.  [scale_reverse] is [scale_labels] inverted this way. *)
Theorem invert_items_lookup (items : list (Z * string)) (k : Z) (v : string) :
  NoDup items.*2 ->
  invert_items items !! v = Some k <-> (k, v) ∈ items.
Proof.
  intros Hnd. unfold invert_items. split.
  - intros H. apply dict_of_items_lookup_elem in H.
    apply list_elem_of_fmap in H as [[k' v'] [Heq Hin]].
    simpl in Heq. injection Heq as -> ->. exact Hin.
  - intros Hin. apply dict_of_items_lookup_Some.
    + rewrite <- list_fmap_compose. exact Hnd.
    + apply (list_elem_of_fmap_2 (fun kv : Z * string => (kv.2, kv.1)) _ (k, v)), Hin.
Qed.

Lemma invert_items_lookup_witness :
  scale_reverse = invert_items scale_labels /\
  (scale_reverse !! "Sometimes" = Some 3 <-> (3, "Sometimes") ∈ scale_labels).
Proof.
  split; [reflexivity|].
  apply (invert_items_lookup scale_labels 3 "Sometimes").
  unfold scale_labels. simpl.
  repeat (apply NoDup_cons; split;
          [rewrite ?not_elem_of_cons; repeat split; try discriminate;
           apply not_elem_of_nil|]).
  apply NoDup_nil. exact I.
Defined.

Ltac in_list :=
  repeat first [ apply list_elem_of_here | apply list_elem_of_further ].

(** X6: the two label dictionaries accept exactly the choices that the
    select boxes offer, and every code they give is between 1 and 5. *)
Theorem select_box_choices_accepted (s : string) :
  ((exists k, getitem scale_reverse s = Return k) <-> s ∈ scale_options) /\
  ((exists k, getitem health_map s = Return k) <-> s ∈ health_options) /\
  (forall k, getitem scale_reverse s = Return k -> 1 <= k <= 5) /\
  (forall k, getitem health_map s = Return k -> 1 <= k <= 5).
Proof.
  assert (Hscale : forall k, getitem scale_reverse s = Return k ->
                             s ∈ scale_options /\ 1 <= k <= 5).
  { intros k H. apply getitem_Return, dict_of_items_lookup_elem in H.
    simpl in H. unfold scale_options, scale_labels. simpl.
    repeat (apply elem_of_cons in H as [H|H];
            [injection H as -> ->; split; [in_list | lia]|]).
    exfalso. revert H. apply not_elem_of_nil. }
  assert (Hhealth : forall k, getitem health_map s = Return k ->
                              s ∈ health_options /\ 1 <= k <= 5).
  { intros k H. apply getitem_Return, dict_of_items_lookup_elem in H.
    unfold health_options, health_map_items. simpl.
    repeat (apply elem_of_cons in H as [H|H];
            [injection H as -> ->; split; [in_list | lia]|]).
    exfalso. revert H. apply not_elem_of_nil. }
  split; [|split; [|split]].
  - split; [intros [k H]; apply (Hscale k H)|].
    unfold scale_options, scale_labels. simpl. intros H.
    repeat (apply elem_of_cons in H as [->|H]; [eexists; reflexivity|]).
    exfalso. revert H. apply not_elem_of_nil.
  - split; [intros [k H]; apply (Hhealth k H)|].
    unfold health_options, health_map_items. simpl. intros H.
    repeat (apply elem_of_cons in H as [->|H]; [eexists; reflexivity|]).
    exfalso. revert H. apply not_elem_of_nil.
  - intros k H. apply (Hscale k H).
  - intros k H. apply (Hhealth k H).
Qed.

(** ** The scoring chain, stage by stage *)

Lemma getitem_total {V : Type} `{!Inhabited V} (d : gmap string V) (k : string) :
  is_Some (d !! k) -> getitem d k = Return (d !!! k).
Proof.
  intros [v Hv]. unfold getitem. rewrite Hv, (lookup_total_correct _ _ _ Hv).
  reflexivity.
Qed.

Lemma scale_reverse_accepts (s : string) :
  s ∈ scale_options ->
  is_Some (scale_reverse !! s) /\ 1 <= scale_reverse !!! s <= 5.
Proof.
  unfold scale_options, scale_labels. simpl. intros H.
  repeat (apply elem_of_cons in H as [->|H];
          [split; [eexists; reflexivity | vm_compute; split; discriminate]|]).
  exfalso. revert H. apply not_elem_of_nil.
Qed.

Lemma health_map_accepts (s : string) :
  s ∈ health_options ->
  is_Some (health_map !! s) /\ 1 <= health_map !!! s <= 5.
Proof.
  unfold health_options, health_map_items. simpl. intros H.
  repeat (apply elem_of_cons in H as [->|H];
          [split; [eexists; reflexivity | vm_compute; split; discriminate]|]).
  exfalso. revert H. apply not_elem_of_nil.
Qed.

Lemma scale_reverse_rejects (s : string) :
  s ∉ scale_options -> getitem scale_reverse s = Raise (KeyError [s]).
Proof. intros H. apply getitem_missing. exact H. Qed.

Lemma health_map_rejects (s : string) :
  s ∉ health_options -> getitem health_map s = Raise (KeyError [s]).
Proof. intros H. apply getitem_missing. exact H. Qed.

(** After the five lookups the outcome is decided by the columns and by the
    pipeline. *)
Lemma score_after_lookups (a : answers) (w : world) :
  from_select_boxes a ->
  (score a w).1
  = match frame_getitem (assembled_row a) (top_features (artifact w)) with
    | Return f => scored (artifact w) f
    | Raise e => Raise e
    end.
Proof.
  intros (Hh & Hc & Hf & Hy & Ho). unfold score.
  rewrite (bindM_eval_Return _ _ _ _
             (getitem_total _ _ (proj1 (health_map_accepts _ Hh)))).
  rewrite (bindM_eval_Return _ _ _ _
             (getitem_total _ _ (proj1 (scale_reverse_accepts _ Hc)))).
  rewrite (bindM_eval_Return _ _ _ _
             (getitem_total _ _ (proj1 (scale_reverse_accepts _ Hf)))).
  rewrite (bindM_eval_Return _ _ _ _
             (getitem_total _ _ (proj1 (scale_reverse_accepts _ Hy)))).
  rewrite (bindM_eval_Return _ _ _ _
             (getitem_total _ _ (proj1 (scale_reverse_accepts _ Ho)))).
  rewrite bindM_global. fold (assembled_row a).
  destruct (frame_getitem (assembled_row a) (top_features (artifact w))) as [f|e].
  - rewrite (bindM_eval_Return (Return f) f _ w eq_refl), bindM_global.
    unfold scored.
    destruct (log_reg_model (artifact w) f) as [p|e].
    + rewrite (bindM_eval_Return (Return p) p _ w eq_refl), bindM_global.
      reflexivity.
    + rewrite (bindM_eval_Raise (Raise e) e _ w eq_refl). reflexivity.
  - rewrite (bindM_eval_Raise (Raise e) e _ w eq_refl). reflexivity.
Qed.

Lemma assembled_row_lookup_Some (a : answers) (c : string) :
  c ∈ feature_names -> is_Some (assembled_row a !! c).
Proof. apply feature_row_lookup_Some. Qed.

Lemma assembled_row_lookup_None (a : answers) (c : string) :
  assembled_row a !! c = None <-> c ∉ feature_names.
Proof. apply feature_row_lookup_None. Qed.

Lemma score_ok (a : answers) (w : world) :
  from_select_boxes a ->
  (forall c, c ∈ top_features (artifact w) -> c ∈ feature_names) ->
  (score a w).1
  = scored (artifact w) (assembled_frame a (top_features (artifact w))).
Proof.
  intros Ha Hcols. rewrite (score_after_lookups a w Ha).
  rewrite frame_getitem_present; [reflexivity|].
  intros c Hc. apply assembled_row_lookup_Some, Hcols, Hc.
Qed.

Lemma score_missing_column (a : answers) (w : world) (c : string) :
  from_select_boxes a ->
  c ∈ top_features (artifact w) -> c ∉ feature_names ->
  (score a w).1
  = Raise (KeyError (missing_columns (assembled_row a) (top_features (artifact w)))) /\
  c ∈ missing_columns (assembled_row a) (top_features (artifact w)).
Proof.
  intros Ha Hin Hout. rewrite (score_after_lookups a w Ha).
  destruct (frame_getitem_absent (assembled_row a) _ c Hin) as [Hraise Hm].
  - apply assembled_row_lookup_None, Hout.
  - rewrite Hraise. split; [reflexivity | exact Hm].
Qed.

(** The first label without a code stops the chain. *)
Lemma score_bad_label (a : answers) (w : world) :
  (health a ∉ health_options -> (score a w).1 = Raise (KeyError [health a])) /\
  (health a ∈ health_options -> control a ∉ scale_options ->
   (score a w).1 = Raise (KeyError [control a])) /\
  (health a ∈ health_options -> control a ∈ scale_options ->
   confid a ∉ scale_options ->
   (score a w).1 = Raise (KeyError [confid a])) /\
  (health a ∈ health_options -> control a ∈ scale_options ->
   confid a ∈ scale_options -> yourway a ∉ scale_options ->
   (score a w).1 = Raise (KeyError [yourway a])) /\
  (health a ∈ health_options -> control a ∈ scale_options ->
   confid a ∈ scale_options -> yourway a ∈ scale_options ->
   overcome a ∉ scale_options ->
   (score a w).1 = Raise (KeyError [overcome a])).
Proof.
  unfold score. repeat split; intros;
    repeat match goal with
      | H : ?s ∈ health_options |- _ =>
          rewrite (bindM_eval_Return _ _ _ _
                     (getitem_total _ _ (proj1 (health_map_accepts _ H))));
          clear H
      | H : ?s ∈ scale_options |- _ =>
          rewrite (bindM_eval_Return _ _ _ _
                     (getitem_total _ _ (proj1 (scale_reverse_accepts _ H))));
          clear H
      | H : ?s ∉ health_options |- _ =>
          rewrite (bindM_eval_Raise _ _ _ _ (health_map_rejects _ H)); clear H
      | H : ?s ∉ scale_options |- _ =>
          rewrite (bindM_eval_Raise _ _ _ _ (scale_reverse_rejects _ H)); clear H
      end; reflexivity.
Qed.

(** What a returned outcome tells about the answers and the artifact. *)
Lemma score_Return_inv (a : answers) (w : world) (p : spec_float) (l : Z) :
  (score a w).1 = Return (p, l) ->
  from_select_boxes a /\
  (forall c, c ∈ top_features (artifact w) -> c ∈ feature_names) /\
  log_reg_model (artifact w) (assembled_frame a (top_features (artifact w)))
  = Return p /\
  l = pred p (threshold (artifact w)).
Proof.
  intros Hs.
  pose proof (score_bad_label a w) as (Bh & Bc & Bf & By & Bo).
  destruct (decide (health a ∈ health_options)) as [Hh|Hh];
    [|rewrite (Bh Hh) in Hs; discriminate].
  destruct (decide (control a ∈ scale_options)) as [Hc|Hc];
    [|rewrite (Bc Hh Hc) in Hs; discriminate].
  destruct (decide (confid a ∈ scale_options)) as [Hf|Hf];
    [|rewrite (Bf Hh Hc Hf) in Hs; discriminate].
  destruct (decide (yourway a ∈ scale_options)) as [Hy|Hy];
    [|rewrite (By Hh Hc Hf Hy) in Hs; discriminate].
  destruct (decide (overcome a ∈ scale_options)) as [Ho|Ho];
    [|rewrite (Bo Hh Hc Hf Hy Ho) in Hs; discriminate].
  assert (Ha : from_select_boxes a) by (repeat split; assumption).
  assert (Hcols : forall c, c ∈ top_features (artifact w) -> c ∈ feature_names).
  { intros c Hc'. destruct (decide (c ∈ feature_names)) as [Hin|Hout]; [exact Hin|].
    destruct (score_missing_column a w c Ha Hc' Hout) as [Hr _].
    rewrite Hr in Hs. discriminate. }
  split; [exact Ha|]. split; [exact Hcols|].
  rewrite (score_ok a w Ha Hcols) in Hs. unfold scored in Hs.
  destruct (log_reg_model _ _) as [p'|e]; [|discriminate].
  injection Hs as -> ->. split; reflexivity.
Qed.

(** X7: the chain returns a probability and a label exactly when the five
    labels are choices of their select boxes, every name in [top_features]
    is one of the ten columns and the pipeline returns on the assembled
    frame; the label is then the threshold test of that probability. *)
Theorem score_returns_iff (a : answers) (w : world) (p : spec_float) (l : Z) :
  (score a w).1 = Return (p, l) <->
  from_select_boxes a /\
  (forall c, c ∈ top_features (artifact w) -> c ∈ feature_names) /\
  log_reg_model (artifact w) (assembled_frame a (top_features (artifact w)))
  = Return p /\
  l = pred p (threshold (artifact w)).
Proof.
  split; [apply score_Return_inv|].
  intros (Ha & Hcols & Hm & ->).
  rewrite (score_ok a w Ha Hcols). unfold scored. rewrite Hm. reflexivity.
Qed.

Lemma score_returns_iff_witness :
  (score sample_answers sample_world).1 = Return (f_half, 1).
Proof.
  apply (score_returns_iff sample_answers sample_world f_half 1).
  split; [|split; [|split]].
  - unfold from_select_boxes. repeat split; simpl; in_list.
  - intros c Hc. exact Hc.
  - reflexivity.
  - reflexivity.
Defined.

(** X8: a failure is reported for the first stage that fails, in the order
    of the script: the health label, then the labels of control, confidence,
    your-way and overcome, each named in its [KeyError], then the columns,
    whose [KeyError] holds every name of [top_features] that is no column. *)
Theorem score_first_failure (a : answers) (w : world) :
  (health a ∉ health_options -> (score a w).1 = Raise (KeyError [health a])) /\
  (health a ∈ health_options -> control a ∉ scale_options ->
   (score a w).1 = Raise (KeyError [control a])) /\
  (health a ∈ health_options -> control a ∈ scale_options ->
   confid a ∉ scale_options ->
   (score a w).1 = Raise (KeyError [confid a])) /\
  (health a ∈ health_options -> control a ∈ scale_options ->
   confid a ∈ scale_options -> yourway a ∉ scale_options ->
   (score a w).1 = Raise (KeyError [yourway a])) /\
  (health a ∈ health_options -> control a ∈ scale_options ->
   confid a ∈ scale_options -> yourway a ∈ scale_options ->
   overcome a ∉ scale_options ->
   (score a w).1 = Raise (KeyError [overcome a])) /\
  (from_select_boxes a ->
   forall c, c ∈ top_features (artifact w) -> c ∉ feature_names ->
   exists missing,
     (score a w).1 = Raise (KeyError missing) /\
     forall c', c' ∈ missing <->
                c' ∈ top_features (artifact w) /\ c' ∉ feature_names).
Proof.
  pose proof (score_bad_label a w) as (Bh & Bc & Bf & By & Bo).
  repeat (split; [assumption|]).
  intros Ha c Hin Hout.
  destruct (score_missing_column a w c Ha Hin Hout) as [Hr _].
  eexists. split; [exact Hr|].
  intros c'. rewrite missing_columns_elem, assembled_row_lookup_None. tauto.
Qed.

Lemma score_first_failure_witness :
  (score bad_health_answers (mkworld skewed_model [])).1 = Raise (KeyError ["Bad"]) /\
  exists missing,
    (score sample_answers (mkworld skewed_model [])).1 = Raise (KeyError missing) /\
    "UNKNOWN_FEATURE" ∈ missing.
Proof.
  split.
  - destruct (score_first_failure bad_health_answers (mkworld skewed_model []))
      as (Hh & _).
    apply Hh. unfold health_options, health_map_items. simpl.
    rewrite !not_elem_of_cons. repeat split; try discriminate.
    apply not_elem_of_nil.
  - destruct (score_first_failure sample_answers (mkworld skewed_model []))
      as (_ & _ & _ & _ & _ & Hcols).
    assert (Hout : "UNKNOWN_FEATURE" ∉ feature_names).
    { unfold feature_names. rewrite !not_elem_of_cons.
      repeat split; try discriminate. apply not_elem_of_nil. }
    destruct (Hcols ltac:(unfold from_select_boxes; repeat split; simpl; in_list)
                "UNKNOWN_FEATURE" ltac:(simpl; in_list) Hout)
      as (missing & Hr & Hm).
    exists missing. split; [exact Hr|].
    apply Hm. split; [simpl; in_list | exact Hout].
Defined.

(** ** The row the pipeline is given *)

(** X9: for answers taken from the select boxes every column of the row is
    a number in the range of its question: 1 or 2 for the five yes/no
    columns, 1 to 5 for CONTROL, YOURWAY and HEALTH, and 4 to 20 for
    P_STRESS, which exceeds CONTROL + YOURWAY by the two codes that are no
    column of their own, between 2 and 10; AGE_R_LMP is the computed age. *)
Theorem assembled_row_ranges (a : answers) :
  from_select_boxes a ->
  (forall c, c ∈ ["TENSE"; "IRRITAB"; "NISWEAT"; "SMOKE_R"; "DIFFISLP"] ->
             assembled_row a !! c = Some 1 \/ assembled_row a !! c = Some 2) /\
  (forall c, c ∈ ["CONTROL"; "YOURWAY"; "HEALTH"] ->
             exists v, assembled_row a !! c = Some v /\ 1 <= v <= 5) /\
  (exists s c y,
     assembled_row a !! "P_STRESS" = Some s /\
     assembled_row a !! "CONTROL" = Some c /\
     assembled_row a !! "YOURWAY" = Some y /\
     4 <= s <= 20 /\ 2 <= s - c - y <= 10) /\
  assembled_row a !! "AGE_R_LMP"
  = Some (calculate_age_r_lmp (dob a) (lmp_date a)).
Proof.
  intros (Hh & Hc & Hf & Hy & Ho).
  destruct (feature_row_values (tense_val a) (irritab_val a)
              (scale_reverse !!! control a)
              (calculate_p_stress (scale_reverse !!! control a)
                 (scale_reverse !!! confid a) (scale_reverse !!! yourway a)
                 (scale_reverse !!! overcome a))
              (scale_reverse !!! yourway a) (nisweat_val a)
              (calculate_age_r_lmp (dob a) (lmp_date a)) (smoke_val a)
              (diffislp_val a) (health_map !!! health a))
    as (Rt & Ri & Rc & Rp & Ry & Rn & Ra & Rs & Rd & Rh).
  fold (assembled_row a) in Rt, Ri, Rc, Rp, Ry, Rn, Ra, Rs, Rd, Rh.
  apply health_map_accepts in Hh as [_ Hh].
  apply scale_reverse_accepts in Hc as [_ Hc], Hf as [_ Hf], Hy as [_ Hy],
    Ho as [_ Ho].
  split; [|split; [|split]].
  - intros c H.
    repeat (apply elem_of_cons in H as [->|H];
            [first [rewrite Rt | rewrite Ri | rewrite Rn | rewrite Rs | rewrite Rd];
             unfold tense_val, irritab_val, nisweat_val, smoke_val, diffislp_val;
             match goal with
             | |- context [String.eqb ?s "Yes"] => destruct (String.eqb s "Yes")
             end; [right | left]; reflexivity|]).
    exfalso. revert H. apply not_elem_of_nil.
  - intros c H.
    repeat (apply elem_of_cons in H as [->|H];
            [eexists; split; [first [exact Rc | exact Ry | exact Rh] | assumption]|]).
    exfalso. revert H. apply not_elem_of_nil.
  - exists (calculate_p_stress (scale_reverse !!! control a)
              (scale_reverse !!! confid a) (scale_reverse !!! yourway a)
              (scale_reverse !!! overcome a)),
      (scale_reverse !!! control a), (scale_reverse !!! yourway a).
    split; [exact Rp|]. split; [exact Rc|]. split; [exact Ry|].
    unfold calculate_p_stress. lia.
  - exact Ra.
Qed.

Lemma assembled_row_ranges_witness :
  assembled_row sample_answers !! "AGE_R_LMP" = Some 50 /\
  exists v, assembled_row sample_answers !! "HEALTH" = Some v /\ 1 <= v <= 5.
Proof.
  destruct (assembled_row_ranges sample_answers) as (_ & Hcodes & _ & Hage).
  - unfold from_select_boxes. repeat split; simpl; in_list.
  - split; [exact Hage|]. apply Hcodes. in_list.
Defined.

Lemma with_confid_overcome_row (a : answers) (c o : string) :
  scale_reverse !!! c + scale_reverse !!! o
  = scale_reverse !!! confid a + scale_reverse !!! overcome a ->
  assembled_row (with_confid_overcome a c o) = assembled_row a.
Proof.
  intros Hsum. unfold assembled_row, with_confid_overcome, tense_val,
    irritab_val, nisweat_val, smoke_val, diffislp_val. simpl.
  f_equal. unfold calculate_p_stress. lia.
Qed.

(** X10: the answers on confidence and on overcoming reach the pipeline
    only through their sum: replacing the two labels by two others from the
    select box whose codes add up to the same gives the same outcome, and in
    particular exchanging the two answers changes nothing. *)
Theorem score_confid_overcome (a : answers) (c o : string) (w : world) :
  from_select_boxes a -> c ∈ scale_options -> o ∈ scale_options ->
  scale_reverse !!! c + scale_reverse !!! o
  = scale_reverse !!! confid a + scale_reverse !!! overcome a ->
  score (with_confid_overcome a c o) w = score a w /\
  score (with_confid_overcome a (overcome a) (confid a)) w = score a w.
Proof.
  intros Ha Hc Ho Hsum.
  assert (Hgen : forall c' o', c' ∈ scale_options -> o' ∈ scale_options ->
            scale_reverse !!! c' + scale_reverse !!! o'
            = scale_reverse !!! confid a + scale_reverse !!! overcome a ->
            score (with_confid_overcome a c' o') w = score a w).
  { intros c' o' Hc' Ho' Hs.
    assert (Ha' : from_select_boxes (with_confid_overcome a c' o')).
    { destruct Ha as (H1 & H2 & _ & H4 & _). repeat split; assumption. }
    pose proof (score_world a w) as Hw.
    pose proof (score_world (with_confid_overcome a c' o') w) as Hw'.
    pose proof (score_after_lookups a w Ha) as Hr.
    pose proof (score_after_lookups _ w Ha') as Hr'.
    rewrite (with_confid_overcome_row a c' o' Hs) in Hr'.
    destruct (score a w) as [r1 w1], (score (with_confid_overcome a c' o') w)
      as [r2 w2].
    simpl in *. congruence. }
  split; [apply Hgen; assumption|].
  destruct Ha as (_ & _ & Hf & _ & Ho'). apply Hgen; [assumption..|lia].
Qed.

Lemma score_confid_overcome_witness :
  score (with_confid_overcome sample_answers "Very Often" "Fairly Often")
    sample_world
  = score sample_answers sample_world.
Proof.
  apply (score_confid_overcome sample_answers "Very Often" "Fairly Often"
           sample_world).
  - unfold from_select_boxes. repeat split; simpl; in_list.
  - simpl; in_list.
  - simpl; in_list.
  - vm_compute. reflexivity.
Defined.

(** ** What the block shows *)

Lemma float_ge_nan (x : spec_float) :
  float_ge S754_nan x = false /\ float_ge x S754_nan = false.
Proof. unfold float_ge, SFleb. destruct x; split; reflexivity. Qed.

Lemma report_widgets_verdict (thr p : spec_float) :
  report_widgets thr p (pred p thr)
  = [st_subheader "Results"; st_write_probability p;
     if float_ge p thr then st_error_at_risk else st_success_not_at_risk;
     st_plotly_chart (float_mul p f100) (float_mul thr f100)].
Proof.
  unfold report_widgets, pred. destruct (float_ge p thr); reflexivity.
Qed.

(** X11: a run of the block only appends to the page, and what it appends
    is either the single error message of the exception that the chain
    raised, or the four result widgets: the heading, the probability, one
    verdict, which is "at risk" exactly when the probability passes the
    threshold test, and the gauge.  Results and error never come together. *)
Theorem predict_risk_page (a : answers) (w : world) :
  exists out : list widget,
    page (predict_risk a w).2 = (page w ++ out)%list /\
    ((exists e, (score a w).1 = Raise e /\ out = [st_error_processing e]) \/
     (exists p,
        (score a w).1 = Return (p, pred p (threshold (artifact w))) /\
        out = [st_subheader "Results"; st_write_probability p;
               if float_ge p (threshold (artifact w))
               then st_error_at_risk else st_success_not_at_risk;
               st_plotly_chart (float_mul p f100)
                 (float_mul (threshold (artifact w)) f100)])).
Proof.
  rewrite predict_risk_run. simpl.
  destruct (score a w).1 as [[p l]|e] eqn:Hs.
  - apply score_Return_inv in Hs as (_ & _ & _ & ->).
    eexists. split; [reflexivity|]. right. exists p.
    split; [reflexivity|]. apply report_widgets_verdict.
  - eexists. split; [reflexivity|]. left. exists e. split; reflexivity.
Qed.

(** X12: a probability that is not a number, or a threshold that is not a
    number, fails the threshold test: the label is 0 and the verdict shown
    is "not at high risk". *)
Theorem nan_is_not_at_risk (a : answers) (w : world) (p : spec_float) (l : Z) :
  (score a w).1 = Return (p, l) ->
  p = S754_nan \/ threshold (artifact w) = S754_nan ->
  l = 0 /\
  page (predict_risk a w).2
  = (page w ++
     [st_subheader "Results"; st_write_probability p; st_success_not_at_risk;
      st_plotly_chart (float_mul p f100)
        (float_mul (threshold (artifact w)) f100)])%list.
Proof.
  intros Hs Hnan. rewrite predict_risk_run, Hs. simpl.
  apply score_Return_inv in Hs as (_ & _ & _ & ->).
  assert (Hge : float_ge p (threshold (artifact w)) = false).
  { destruct Hnan as [->| ->]; apply float_ge_nan. }
  rewrite report_widgets_verdict. unfold pred. rewrite Hge.
  split; reflexivity.
Qed.

Lemma nan_is_not_at_risk_witness :
  page (predict_risk sample_answers (mkworld nan_model [])).2
  = [st_subheader "Results"; st_write_probability S754_nan;
     st_success_not_at_risk;
     st_plotly_chart (float_mul S754_nan f100) (float_mul f_half f100)].
Proof.
  apply (nan_is_not_at_risk sample_answers (mkworld nan_model []) S754_nan 0).
  - vm_compute. reflexivity.
  - left. reflexivity.
Defined.

(** X13: the label never goes down when the probability goes up, and never
    goes up when the threshold does. *)
Theorem pred_monotone (p p' t t' : spec_float) :
  probability p -> probability p' -> probability t -> probability t' ->
  (float_value p <= float_value p')%Q ->
  (float_value t' <= float_value t)%Q ->
  pred p t <= pred p' t'.
Proof.
  intros Hp Hp' Ht Ht' Hpp Htt. unfold pred.
  destruct (float_ge p t) eqn:E; [|destruct (float_ge p' t'); simpl; lia].
  apply (float_ge_value p t Hp Ht) in E.
  assert (E' : float_ge p' t' = true).
  { apply (float_ge_value p' t' Hp' Ht').
    apply (Qle_trans _ _ _ Htt). apply (Qle_trans _ _ _ E). exact Hpp. }
  rewrite E'. simpl. lia.
Qed.

Lemma pred_monotone_witness :
  pred f_0_4999 f_half <= pred f_0_5001 f_half.
Proof.
  destruct sample_floats_probabilities as (Hhalf & Hlow & Hhigh).
  apply (pred_monotone f_0_4999 f_0_5001 f_half f_half Hlow Hhigh Hhalf Hhalf).
  - vm_compute. intros H. discriminate H.
  - apply Qle_refl.
Defined.

(** ** Instances of the equivalences *)

Lemma age_completed_years_witness :
  50 = calculate_age_r_lmp (mkdate 1970 1 1) (mkdate 2020 1 1).
Proof.
  apply (age_completed_years (mkdate 1970 1 1) (mkdate 2020 1 1) 50).
  split; reflexivity.
Defined.

Lemma age_negative_iff_witness :
  calculate_age_r_lmp (mkdate 2000 6 15) (mkdate 2000 3 1) < 0.
Proof.
  apply (age_negative_iff (mkdate 2000 6 15) (mkdate 2000 3 1)). reflexivity.
Defined.

Lemma select_box_choices_accepted_witness :
  exists k, getitem scale_reverse "Sometimes" = Return k.
Proof.
  destruct (select_box_choices_accepted "Sometimes") as (Hscale & _).
  apply Hscale. simpl. in_list.
Defined.
